(** * Data Processing Service: a shallow embedding of
      [applications/data-processor/main.py] and the properties of its
      task endpoints.

    The service is a FastAPI application with four routes.  Every handler
    is an [async def] without a single [await], so the event loop runs each
    invocation to completion before it starts the next one: an execution of
    the service, however the requests overlap on the wire, is a sequence of
    handler invocations.  The value a handler computes is embedded as a
    function of its argument and of the value its call to [time.time()]
    returns; its body is embedded as a program that may call the clock and
    read or assign the names of the module, run by a process that threads
    those names from one invocation to the next. *)

From Stdlib Require Import ZArith List String Ascii Bool Lia Permutation.
From Stdlib Require Import DecimalString DecimalZ SpecFloat.
From Stdlib Require Import QArith Lqa.
Import ListNotations.

Local Open Scope Z_scope.
Local Open Scope list_scope.
Local Open Scope string_scope.

Set Implicit Arguments.
Set Warnings "-register-all".

(** ** Python values *)

(** [time.time()] is a Python [float], an IEEE 754 binary64 number.  The
    fields of [S754_finite s m e] stand for the number [(-1)^s * m * 2^e]. *)
Definition float := spec_float.

(** What the handlers put in their dictionaries, and what a request may
    carry under [parameters : Dict[str, Any]].  A dictionary keeps its
    entries in insertion order. *)
Inductive pyval : Type :=
| PyNone
| PyBool (b : bool)
| PyInt (n : Z)
| PyFloat (x : float)
| PyStr (s : string)
| PyList (l : list pyval)
| PyDict (d : list (string * pyval)).

Definition dict := list (string * pyval).

(** [d.get(key)] *)
Fixpoint dict_get (key : string) (d : dict) : option pyval :=
  match d with
  | [] => None
  | (k, v) :: d' => if String.eqb k key then Some v else dict_get key d'
  end.

(** Exceptions of the built-ins the handlers call. *)
Inductive exn : Type :=
| ValueError
| OverflowError.

Inductive result (A : Type) : Type :=
| Ok (a : A)
| Raise (e : exn).

Arguments Ok {A} a.
Arguments Raise {A} e.

Definition is_finite (x : float) : bool :=
  match x with
  | S754_zero _ | S754_finite _ _ _ => true
  | S754_infinity _ | S754_nan => false
  end.

(** [int(x)] on a float: the fractional part is dropped (rounding toward
    zero); a NaN raises [ValueError] and an infinity [OverflowError].
    [Z.shiftl] by a negative amount shifts right. *)
Definition int_of_float (x : float) : result Z :=
  match x with
  | S754_zero _ => Ok 0
  | S754_finite s m e => Ok (cond_Zopp s (Z.shiftl (Zpos m) e))
  | S754_infinity _ => Raise OverflowError
  | S754_nan => Raise ValueError
  end.

(** [str(n)] on an int, which is also how an f-string formats it: decimal
    digits, no leading zero, a leading minus sign when negative. *)
Definition str_of_int (n : Z) : string :=
  NilZero.string_of_int (Z.to_int n).

(** ** The request model *)

(** [class ProcessingRequest(BaseModel)] *)
Record ProcessingRequest : Type := {
  operation_type : string;
  data_source : string;
  parameters : dict
}.

(** ** The handlers *)

(** [GET /health], with [response_model=HealthResponse] *)
Definition health_check (now : float) : result pyval :=
  Ok (PyDict [("status", PyStr "healthy");
              ("timestamp", PyFloat now);
              ("version", PyStr "1.0.0")]).

(** [GET /ready] *)
Definition readiness_check (now : float) : result pyval :=
  Ok (PyDict [("status", PyStr "ready"); ("timestamp", PyFloat now)]).

(** [POST /api/process] *)
Definition process_data (request : ProcessingRequest) (now : float)
  : result pyval :=
  match int_of_float now with
  | Raise e => Raise e
  | Ok seconds =>
      let task_id := "task_" ++ str_of_int seconds in
      Ok (PyDict
            [("task_id", PyStr task_id);
             ("status", PyStr "processing");
             ("message",
               PyStr ("Started " ++ operation_type request ++ " processing"));
             ("operation_type", PyStr (operation_type request));
             ("data_source", PyStr (data_source request))])
  end.

(** [GET /api/tasks/{task_id}] *)
Definition get_task_status (task_id : string) : result pyval :=
  Ok (PyDict
        [("task_id", PyStr task_id);
         ("status", PyStr "completed");
         ("result", PyStr ("Processing completed for " ++ task_id))]).

(** ** Predicates on text *)

Fixpoint string_forall (p : ascii -> bool) (s : string) : bool :=
  match s with
  | EmptyString => true
  | String c s' => p c && string_forall p s'
  end.

Definition is_digit (c : ascii) : bool :=
  (("0" <=? c) && (c <=? "9"))%char.

Definition is_letter (c : ascii) : bool :=
  ((("a" <=? c) && (c <=? "z")) || (("A" <=? c) && (c <=? "Z")))%char.

(** The characters a URL carries as they are, without percent-encoding:
    letters, digits, and the marks [-], [.], [_] and [~]. *)
Definition unreserved (c : ascii) : bool :=
  is_letter c || is_digit c ||
  (c =? "-")%char || (c =? ".")%char || (c =? "_")%char || (c =? "~")%char.

(** ** The application *)

(** The four routes registered on [app], with the argument the framework
    hands to the handler: for a submission the body, once it has validated
    as a [ProcessingRequest]; for the lookup the text that follows
    [/api/tasks/] in the path, percent-decoded. *)
Inductive http_request : Type :=
| GET_health
| GET_ready
| POST_api_process (request : ProcessingRequest)
| GET_api_tasks (task_id : string).

Record http_response : Type := {
  status_code : Z;
  body : pyval
}.

(** A response body is rendered by [json.dumps] with [allow_nan=False],
    which fails on a float that is not finite. *)
Fixpoint json_ok (v : pyval) : bool :=
  match v with
  | PyFloat x => is_finite x
  | PyList l => forallb json_ok l
  | PyDict d => forallb (fun kv => json_ok (snd kv)) d
  | PyNone | PyBool _ | PyInt _ | PyStr _ => true
  end.

Definition internal_server_error : http_response :=
  {| status_code := 500; body := PyStr "Internal Server Error" |}.

(** A handler that returns is answered with 200 and its value as JSON; an
    exception that escapes the handler or the rendering is answered with
    500. *)
Definition respond (r : result pyval) : http_response :=
  match r with
  | Ok v =>
      if json_ok v then {| status_code := 200; body := v |}
      else internal_server_error
  | Raise _ => internal_server_error
  end.

(** The parameter [{task_id}] of the path [/api/tasks/{task_id}] matches
    one path segment: a text that is not empty and has no slash. *)
Definition path_segment (s : string) : bool :=
  negb (String.eqb s "") &&
  string_forall (fun c => negb (c =? "/")%char) s.

(** The answer to a path that no route matches. *)
Definition not_found : http_response :=
  {| status_code := 404; body := PyDict [("detail", PyStr "Not Found")] |}.

Definition app (rq : http_request) (now : float) : http_response :=
  match rq with
  | GET_health => respond (health_check now)
  | GET_ready => respond (readiness_check now)
  | POST_api_process request => respond (process_data request now)
  | GET_api_tasks task_id =>
      if path_segment task_id then respond (get_task_status task_id)
      else not_found
  end.

(** ** Executions *)

(** One handler invocation: the clock reading it sees and the request. *)
Definition event : Type := (float * http_request)%type.

(** The answers the handlers compute, one per invocation.  That these are
    the answers of the process, which threads the module-level names
    through the execution, is [run_service_frame] below. *)
Definition serve (tr : list event) : list http_response :=
  map (fun ev => app (snd ev) (fst ev)) tr.

(** The response to a request served once [pre] has been served. *)
Definition response_after (pre : list event) (now : float)
  (rq : http_request) : option http_response :=
  nth_error (serve (pre ++ [(now, rq)])%list) (List.length pre).

(** The field [key] of a JSON object response. *)
Definition field (key : string) (r : http_response) : option pyval :=
  match body r with
  | PyDict d => dict_get key d
  | _ => None
  end.

(** The task id a submission's response carries, if it carries one. *)
Definition returned_id (r : http_response) : option string :=
  match field "task_id" r with
  | Some (PyStr s) => Some s
  | _ => None
  end.

(** Every task id a submission of the execution returned. *)
Fixpoint issued_ids (tr : list event) : list string :=
  match tr with
  | [] => []
  | (now, POST_api_process request) :: tr' =>
      match returned_id (app (POST_api_process request) now) with
      | Some s => s :: issued_ids tr'
      | None => issued_ids tr'
      end
  | _ :: tr' => issued_ids tr'
  end.

(** The statuses the lookups for [task_id] report along an execution, in
    the order the lookups are served. *)
Fixpoint polled (task_id : string) (tr : list event) : list (option pyval) :=
  match tr with
  | [] => []
  | (now, GET_api_tasks id') :: tr' =>
      if String.eqb id' task_id
      then field "status" (app (GET_api_tasks id') now) :: polled task_id tr'
      else polled task_id tr'
  | _ :: tr' => polled task_id tr'
  end.

(** ** Handlers as programs

    What the body of a handler can do besides computing a value: call
    [time.time()], read a module-level name, assign to one, or raise.  The
    module-level names are what the handlers of one process share. *)
Inductive prog (A : Type) : Type :=
| Return (a : A)
| Raising (e : exn)
| Call_time (k : float -> prog A)
| Read_global (name : string) (k : option pyval -> prog A)
| Assign_global (name : string) (v : pyval) (k : prog A).

Arguments Return {A} a.
Arguments Raising {A} e.
Arguments Call_time {A} k.
Arguments Read_global {A} name k.
Arguments Assign_global {A} name v k.

Definition of_result {A : Type} (r : result A) : prog A :=
  match r with
  | Ok a => Return a
  | Raise e => Raising e
  end.

(** The bodies of the four handlers: three call [time.time()] once and
    compute their value from the reading, the lookup computes it from its
    argument.  The module-level names they use are the imported [time] and
    the class [HealthResponse], which they call; none reads another
    module-level name, [app] included, and none assigns one. *)
Definition health_check_body : prog pyval :=
  Call_time (fun now => of_result (health_check now)).

Definition readiness_check_body : prog pyval :=
  Call_time (fun now => of_result (readiness_check now)).

Definition process_data_body (request : ProcessingRequest) : prog pyval :=
  Call_time (fun now => of_result (process_data request now)).

Definition get_task_status_body (task_id : string) : prog pyval :=
  of_result (get_task_status task_id).

(** [d[key] = v] *)
Fixpoint dict_set (key : string) (v : pyval) (d : dict) : dict :=
  match d with
  | [] => [(key, v)]
  | (k, v') :: d' =>
      if String.eqb k key then (k, v) :: d'
      else (k, v') :: dict_set key v d'
  end.

(** A body run at the clock reading [now] by a process whose module-level
    names hold [g]: its outcome and the names afterwards. *)
Fixpoint exec {A : Type} (p : prog A) (now : float) (g : dict)
  : result A * dict :=
  match p with
  | Return a => (Ok a, g)
  | Raising e => (Raise e, g)
  | Call_time k => exec (k now) now g
  | Read_global name k => exec (k (dict_get name g)) now g
  | Assign_global name v k => exec k now (dict_set name v g)
  end.

(** The handler a request is routed to, if a route matches. *)
Definition route (rq : http_request) : option (prog pyval) :=
  match rq with
  | GET_health => Some health_check_body
  | GET_ready => Some readiness_check_body
  | POST_api_process request => Some (process_data_body request)
  | GET_api_tasks task_id =>
      if path_segment task_id then Some (get_task_status_body task_id)
      else None
  end.

(** One request served by the process. *)
Definition step (g : dict) (ev : event) : http_response * dict :=
  match route (snd ev) with
  | None => (not_found, g)
  | Some p => let (r, g') := exec p (fst ev) g in (respond r, g')
  end.

(** An execution served by the process, from the names [g] on. *)
Fixpoint run_service (g : dict) (tr : list event)
  : list http_response * dict :=
  match tr with
  | [] => ([], g)
  | ev :: tr' =>
      let (r, g') := step g ev in
      let (rs, g'') := run_service g' tr' in
      (r :: rs, g'')
  end.

(** The response to a request that the process serves once it has served
    [pre], having started with the names [g]. *)
Definition response_in (g : dict) (pre : list event) (now : float)
  (rq : http_request) : option http_response :=
  nth_error (fst (run_service g (pre ++ [(now, rq)])%list)) (List.length pre).

(** A body that neither reads nor assigns a module-level name. *)
Inductive store_free {A : Type} : prog A -> Prop :=
| sf_Return (a : A) : store_free (Return a)
| sf_Raising (e : exn) : store_free (Raising e)
| sf_Call_time (k : float -> prog A) :
    (forall now, store_free (k now)) -> store_free (Call_time k).

(** ** What "the integer number of seconds" means *)

(** [n] is the number [(-1)^s * m * 2^e] with its fraction dropped: [n] has
    the sign [s] and [|n| <= m * 2^e < |n| + 1], the inequalities being
    multiplied by the power of two that clears the negative exponent. *)
Definition truncation_of (s : bool) (m : positive) (e : Z) (n : Z) : Prop :=
  n = cond_Zopp s (Z.abs n) /\
  Z.abs n * 2 ^ Z.max 0 (- e) <= Zpos m * 2 ^ Z.max 0 e
    < (Z.abs n + 1) * 2 ^ Z.max 0 (- e).

Definition whole_seconds (now : float) (n : Z) : Prop :=
  match now with
  | S754_zero _ => n = 0
  | S754_finite s m e => truncation_of s m e n
  | S754_infinity _ | S754_nan => False
  end.

(** ** Vocabulary of the specification

    The specification describes a task store with a status per task and
    typed failures at the HTTP boundary.  These definitions follow its
    words, so that its statements can be put to the handlers above. *)

(** The status of a TaskRecord. *)
Inductive Status : Type :=
| Pending
| Running
| Completed
| Failed.

(** The permitted edges are Pending -> Running -> Completed or Failed;
    [status_leb a b] holds when [b] is [a] or comes after it. *)
Definition status_leb (a b : Status) : bool :=
  match a, b with
  | Pending, _ => true
  | Running, (Running | Completed | Failed) => true
  | Completed, Completed => true
  | Failed, Failed => true
  | _, _ => false
  end.

Fixpoint non_decreasing (l : list Status) : bool :=
  match l with
  | a :: (b :: _) as l' => status_leb a b && non_decreasing l'
  | _ => true
  end.

(** The status a response body names, read by its lower-case name. *)
Definition status_of_pyval (v : option pyval) : option Status :=
  match v with
  | Some (PyStr s) =>
      if String.eqb s "pending" then Some Pending
      else if String.eqb s "running" then Some Running
      else if String.eqb s "completed" then Some Completed
      else if String.eqb s "failed" then Some Failed
      else None
  | _ => None
  end.

Definition InvalidRequest : Z := 400.
Definition Overloaded : Z := 503.


(** ** Sample inputs *)

(** The binary64 numbers 1700000000.25, 1700000000.75 and 1700000001.0. *)
Definition quarter_past : float := S754_finite false 7130316801048576 (-22).
Definition quarter_to : float := S754_finite false 7130316803145728 (-22).
Definition next_second : float := S754_finite false 7130316804194304 (-22).

Definition echo_request : ProcessingRequest :=
  {| operation_type := "echo";
     data_source := "x";
     parameters := [("n", PyInt 3)] |}.


Definition csv_request : ProcessingRequest :=
  {| operation_type := "aggregate";
     data_source := "s3://bucket/input.csv";
     parameters := [] |}.

(** ** Statements of the specification

    Each is the specification's sentence about the core it describes, put
    to the handlers of this module. *)



(** Two submissions are given different ids. *)
Definition submissions_get_distinct_ids
  (now1 : float) (request1 : ProcessingRequest)
  (now2 : float) (request2 : ProcessingRequest) : Prop :=
  forall id1 id2,
    returned_id (app (POST_api_process request1) now1) = Some id1 ->
    returned_id (app (POST_api_process request2) now2) = Some id2 ->
    id1 <> id2.

(** The statuses polled for a submitted task, from a first lookup served
    right after the submission, walk from Pending onwards without ever
    stepping back. *)
Definition lifecycle_starts_pending
  (now : float) (request : ProcessingRequest) (post : list event) : Prop :=
  forall task_id,
    returned_id (app (POST_api_process request) now) = Some task_id ->
    exists sts,
      map status_of_pyval
        (polled task_id ((now, GET_api_tasks task_id) :: post)) =
      map Some sts /\
      hd_error sts = Some Pending /\
      non_decreasing sts = true.


(** Once the submitted echo task is seen completed, its result is the
    parameters it was submitted with. *)
Definition echo_result_is_parameters (now poll_time : float) : Prop :=
  forall task_id,
    returned_id (app (POST_api_process echo_request) now) = Some task_id ->
    let r := app (GET_api_tasks task_id) poll_time in
    field "status" r = Some (PyStr "completed") ->
    field "result" r = Some (PyDict (parameters echo_request)).

(** ** Clock readings as numbers *)

(** The rational number a finite float stands for:
    [(-1)^s * m * 2^e], with a negative exponent in the denominator. *)
Definition float_value (x : float) : option Q :=
  match x with
  | S754_zero _ => Some (0 # 1)
  | S754_finite s m e =>
      Some (cond_Zopp s (Zpos m * 2 ^ Z.max 0 e)
            # Z.to_pos (2 ^ Z.max 0 (- e)))
  | S754_infinity _ | S754_nan => None
  end.

(** The binary64 number 1700000002.5. *)
Definition two_seconds_on : float := S754_finite false 7130316810485760 (-22).

(** ** Proof automation *)

Create Rewrite HintDb service.

(** Serve the request at hand and compute the fields of the answer. *)
Ltac serve_request :=
  autorewrite with service;
  cbn [app respond get_task_status health_check readiness_check
       json_ok forallb snd andb status_code body field returned_id dict_get
       String.eqb Ascii.eqb Bool.eqb].

(** ** Lemmas on the built-ins *)

Section Builtins.

Lemma to_int_proper (n : Z) :
  Z.to_int n <> Decimal.Pos Decimal.Nil /\
  Z.to_int n <> Decimal.Neg Decimal.Nil.
Proof.
  destruct n as [|p|p]; cbn; split; try discriminate;
    intros [= H]; now apply (DecimalPos.Unsigned.to_uint_nonnil p).
Qed.

(** The decimal string of an int reads back as that int. *)
Lemma str_of_int_reads_back (n : Z) :
  option_map Z.of_int (NilZero.int_of_string (str_of_int n)) = Some n.
Proof.
  unfold str_of_int.
  destruct (to_int_proper n) as [Hp Hn].
  rewrite (NilZero.isi _ Hp Hn). cbn. now rewrite DecimalZ.of_to.
Qed.

Lemma str_of_int_inj (a b : Z) : str_of_int a = str_of_int b -> a = b.
Proof.
  intros H.
  assert (E : Some a = Some b)
    by (rewrite <- (str_of_int_reads_back a), H; apply str_of_int_reads_back).
  now injection E.
Qed.

Lemma append_inj_r (p s1 s2 : string) : p ++ s1 = p ++ s2 -> s1 = s2.
Proof.
  induction p as [|c p IH]; cbn; [easy|].
  intros [= H]. now apply IH.
Qed.

Lemma int_of_float_finite (x : float) :
  is_finite x = true -> exists n, int_of_float x = Ok n.
Proof.
  destruct x; cbn; try discriminate; eauto.
Qed.

Lemma int_of_float_not_finite (x : float) :
  is_finite x = false -> exists e, int_of_float x = Raise e.
Proof.
  destruct x; cbn; try discriminate; eauto.
Qed.

End Builtins.

(** ** Truncation *)

Section Truncation.

Variables (s : bool) (m : positive) (e : Z).

Lemma shifted_mantissa_nonneg : 0 <= Z.shiftl (Zpos m) e.
Proof. now apply Z.shiftl_nonneg. Qed.

Lemma abs_cond_Zopp_shifted :
  Z.abs (cond_Zopp s (Z.shiftl (Zpos m) e)) = Z.shiftl (Zpos m) e.
Proof.
  pose proof shifted_mantissa_nonneg.
  destruct s; cbn; lia.
Qed.

(** [int] computes the truncation. *)
Lemma int_of_float_truncates :
  truncation_of s m e (cond_Zopp s (Z.shiftl (Zpos m) e)).
Proof.
  unfold truncation_of. rewrite abs_cond_Zopp_shifted. split; [easy|].
  destruct (Z.le_gt_cases 0 e) as [He|He].
  - rewrite Z.shiftl_mul_pow2 by easy.
    replace (Z.max 0 (- e)) with 0 by lia.
    replace (Z.max 0 e) with e by lia.
    rewrite Z.pow_0_r. lia.
  - assert (Hs : Z.shiftl (Zpos m) e = Zpos m / 2 ^ (- e)).
    { rewrite <- Z.shiftr_div_pow2 by lia.
      rewrite <- Z.shiftl_opp_r. f_equal. lia. }
    rewrite Hs.
    replace (Z.max 0 (- e)) with (- e) by lia.
    replace (Z.max 0 e) with 0 by lia.
    rewrite Z.pow_0_r, Z.mul_1_r.
    assert (Hd : 0 < 2 ^ (- e)) by (apply Z.pow_pos_nonneg; lia).
    assert (Hdm := Z.div_mod (Zpos m) (2 ^ (- e)) ltac:(lia)).
    pose proof (Z.mod_pos_bound (Zpos m) (2 ^ (- e)) Hd).
    lia.
Qed.

(** The truncation is unique. *)
Lemma truncation_unique (n n' : Z) :
  truncation_of s m e n -> truncation_of s m e n' -> n = n'.
Proof.
  intros [Hn [Hl Hu]] [Hn' [Hl' Hu']].
  assert (Hd : 0 < 2 ^ Z.max 0 (- e)) by (apply Z.pow_pos_nonneg; lia).
  assert (Z.abs n = Z.abs n') by nia.
  congruence.
Qed.

End Truncation.

Lemma int_of_float_whole_seconds (now : float) (n : Z) :
  int_of_float now = Ok n <-> whole_seconds now n.
Proof.
  destruct now as [sg|sg| |sg m e]; cbn; split;
    try discriminate; try contradiction.
  - now intros [= <-].
  - now intros ->.
  - intros [= <-]. apply int_of_float_truncates.
  - intros H. f_equal.
    apply (truncation_unique (int_of_float_truncates sg m e) H).
Qed.

(** ** Text *)

Lemma string_forall_app (p : ascii -> bool) (s1 s2 : string) :
  string_forall p (s1 ++ s2) = string_forall p s1 && string_forall p s2.
Proof.
  induction s1 as [|c s1 IH]; cbn; [easy|].
  now rewrite IH, andb_assoc.
Qed.

Lemma string_forall_impl (p q : ascii -> bool) (s : string) :
  (forall c, p c = true -> q c = true) ->
  string_forall p s = true -> string_forall q s = true.
Proof.
  intros Hpq. induction s as [|c s IH]; cbn; [easy|].
  intros [Hc Hs]%andb_prop. now rewrite (Hpq c Hc), (IH Hs).
Qed.

Lemma is_digit_unreserved (c : ascii) :
  is_digit c = true -> unreserved c = true.
Proof.
  intros H. unfold unreserved. rewrite H. now rewrite orb_true_r.
Qed.

Lemma digits_of_uint (d : Decimal.uint) :
  string_forall is_digit (NilEmpty.string_of_uint d) = true.
Proof. induction d; cbn; try rewrite IHd; reflexivity. Qed.

Lemma digits_of_uint_nonempty (d : Decimal.uint) :
  string_forall is_digit (NilZero.string_of_uint d) = true /\
  NilZero.string_of_uint d <> "".
Proof.
  destruct d; (split; [|discriminate]); try reflexivity;
    match goal with
    | |- string_forall _ (NilZero.string_of_uint ?x) = _ =>
        exact (digits_of_uint x)
    end.
Qed.

(** [str] of an int is a run of decimal digits, not empty, after a minus
    sign when the int is negative and after nothing otherwise. *)
Lemma str_of_int_shape (n : Z) :
  exists digits,
    str_of_int n = (if (n <? 0)%Z then "-" else "") ++ digits /\
    digits <> "" /\
    string_forall is_digit digits = true.
Proof.
  unfold str_of_int.
  destruct n as [|p|p]; cbn [Z.to_int NilZero.string_of_int Z.ltb Z.compare].
  - exists "0". now repeat split.
  - exists (NilZero.string_of_uint (Pos.to_uint p)).
    split; [reflexivity|]. split; apply digits_of_uint_nonempty.
  - exists (NilZero.string_of_uint (Pos.to_uint p)).
    split; [reflexivity|]. split; apply digits_of_uint_nonempty.
Qed.

Lemma no_slash_digit (c : ascii) :
  is_digit c = true -> negb (c =? "/")%char = true.
Proof.
  intros H. destruct (Ascii.eqb_spec c "/") as [->|]; [discriminate H|easy].
Qed.

(** The text of an id fits the path parameter of the lookup route. *)
Lemma task_id_path_segment (n : Z) :
  path_segment ("task_" ++ str_of_int n) = true.
Proof.
  destruct (str_of_int_shape n) as (digits & -> & _ & Hd).
  unfold path_segment. apply andb_true_intro. split; [reflexivity|].
  rewrite !string_forall_app.
  rewrite (string_forall_impl is_digit _ digits no_slash_digit Hd).
  now destruct (n <? 0)%Z.
Qed.

(** ** Executions *)

Lemma serve_app (tr1 tr2 : list event) :
  serve (tr1 ++ tr2)%list = (serve tr1 ++ serve tr2)%list.
Proof. apply map_app. Qed.

Lemma serve_length (tr : list event) :
  List.length (serve tr) = List.length tr.
Proof. apply length_map. Qed.

Lemma response_after_app (pre : list event) (now : float) (rq : http_request) :
  response_after pre now rq = Some (app rq now).
Proof.
  unfold response_after.
  rewrite serve_app, nth_error_app2 by (rewrite serve_length; lia).
  now rewrite serve_length, Nat.sub_diag.
Qed.

Lemma issued_ids_In (tr : list event) (id : string) :
  In id (issued_ids tr) <->
  exists now request,
    In (now, POST_api_process request) tr /\
    returned_id (app (POST_api_process request) now) = Some id.
Proof.
  induction tr as [|[now rq] tr IH]; cbn [issued_ids].
  - split; [easy | now intros (? & ? & [] & _)].
  - destruct rq as [| |request|task_id];
      try (rewrite IH; split; intros (t & r & H & E);
           [ exists t, r; split; [now right | easy]
           | destruct H as [[=]|H]; exists t, r; now split ]).
    destruct (returned_id (app (POST_api_process request) now)) as [s|] eqn:E.
    + cbn [In]. rewrite IH. split.
      * intros [<-|(t & r & H & E')].
        -- exists now, request. split; [now left | easy].
        -- exists t, r. split; [now right | easy].
      * intros (t & r & [[= <- <-]|H] & E').
        -- left. congruence.
        -- right. now exists t, r.
    + rewrite IH. split; intros (t & r & H & E').
      * exists t, r. split; [now right | easy].
      * destruct H as [[= <- <-]|H]; [congruence | now exists t, r].
Qed.

#[local] Hint Rewrite response_after_app : service.

(** A submission served at a finite clock reading [now], with [seconds]
    the truncated reading. *)
Lemma process_data_returns (request : ProcessingRequest) (now : float)
  (seconds : Z) :
  int_of_float now = Ok seconds ->
  app (POST_api_process request) now =
  {| status_code := 200;
     body :=
       PyDict
         [("task_id", PyStr ("task_" ++ str_of_int seconds));
          ("status", PyStr "processing");
          ("message",
            PyStr ("Started " ++ operation_type request ++ " processing"));
          ("operation_type", PyStr (operation_type request));
          ("data_source", PyStr (data_source request))] |}.
Proof.
  intros H. cbn [app]. unfold process_data. now rewrite H.
Qed.

Lemma process_data_raises (request : ProcessingRequest) (now : float) :
  is_finite now = false ->
  status_code (app (POST_api_process request) now) = 500.
Proof.
  intros H. destruct (int_of_float_not_finite now H) as [e He].
  cbn [app]. unfold process_data. now rewrite He.
Qed.

(** An id is returned only by a submission that did not raise, and it is
    the one built from the whole seconds. *)
Lemma returned_id_inv (request : ProcessingRequest) (now : float)
  (id : string) :
  returned_id (app (POST_api_process request) now) = Some id ->
  exists n, int_of_float now = Ok n /\ id = "task_" ++ str_of_int n.
Proof.
  destruct (int_of_float now) as [n|e] eqn:Hn.
  - rewrite (process_data_returns request now Hn).
    intros [= <-]. now exists n.
  - cbn [app]. unfold process_data. rewrite Hn. discriminate.
Qed.

Lemma issued_id_path_segment (tr : list event) (id : string) :
  In id (issued_ids tr) -> path_segment id = true.
Proof.
  intros (now & request & _ & Hid)%issued_ids_In.
  destruct (returned_id_inv request now Hid) as (n & _ & ->).
  apply task_id_path_segment.
Qed.

(** A lookup that the route matches is answered by the handler. *)
Lemma lookup_routed (task_id : string) (now : float) :
  path_segment task_id = true ->
  app (GET_api_tasks task_id) now =
  {| status_code := 200;
     body :=
       PyDict
         [("task_id", PyStr task_id);
          ("status", PyStr "completed");
          ("result", PyStr ("Processing completed for " ++ task_id))] |}.
Proof.
  intros H. cbn [app]. now rewrite H.
Qed.


Lemma polled_all_completed (task_id : string) (tr : list event) :
  path_segment task_id = true ->
  polled task_id tr =
  repeat (Some (PyStr "completed")) (List.length (polled task_id tr)).
Proof.
  intros Hseg.
  induction tr as [|[now rq] tr IH]; [easy|].
  destruct rq as [| |request|id']; cbn [polled]; try exact IH.
  destruct (String.eqb_spec id' task_id) as [->|]; [|exact IH].
  rewrite (lookup_routed task_id now Hseg).
  cbn [List.length repeat]. now rewrite <- IH.
Qed.

(** ** Programs *)

(** A body that names no module-level variable leaves them all as they
    were, and its outcome is the same whatever they hold. *)
Lemma store_free_exec (A : Type) (p : prog A) :
  store_free p ->
  forall now g g',
    snd (exec p now g) = g /\ fst (exec p now g) = fst (exec p now g').
Proof.
  induction 1 as [a|e|k _ IH]; intros now g g'; cbn [exec fst snd].
  - now split.
  - now split.
  - apply IH.
Qed.

Lemma of_result_store_free (A : Type) (r : result A) :
  store_free (of_result r).
Proof. destruct r; constructor. Qed.

Lemma exec_of_result (A : Type) (r : result A) (now : float) (g : dict) :
  exec (of_result r) now g = (r, g).
Proof. now destruct r. Qed.

(** No handler of the module names a module-level variable. *)
Lemma route_store_free (rq : http_request) (p : prog pyval) :
  route rq = Some p -> store_free p.
Proof.
  destruct rq as [| |request|task_id]; cbn [route].
  - intros [= <-]. constructor. intros now. apply of_result_store_free.
  - intros [= <-]. constructor. intros now. apply of_result_store_free.
  - intros [= <-]. constructor. intros now. apply of_result_store_free.
  - destruct (path_segment task_id); [|discriminate].
    intros [= <-]. apply of_result_store_free.
Qed.

(** What a routed body computes is what [app] answers. *)
Lemma route_exec (rq : http_request) (p : prog pyval) (now : float) :
  route rq = Some p -> respond (fst (exec p now [])) = app rq now.
Proof.
  destruct rq as [| |request|task_id]; cbn [route app].
  - intros [= <-]. cbn [health_check_body exec]. now rewrite exec_of_result.
  - intros [= <-]. cbn [readiness_check_body exec].
    now rewrite exec_of_result.
  - intros [= <-]. cbn [process_data_body exec]. now rewrite exec_of_result.
  - destruct (path_segment task_id); [|discriminate].
    intros [= <-]. unfold get_task_status_body. now rewrite exec_of_result.
Qed.

Lemma route_none (rq : http_request) (now : float) :
  route rq = None -> app rq now = not_found.
Proof.
  destruct rq as [| |request|task_id]; cbn [route app]; try discriminate.
  now destruct (path_segment task_id).
Qed.

(** Serving a request leaves the module-level names as they were, and the
    answer is that of [app]. *)
Lemma step_frame (g : dict) (ev : event) :
  step g ev = (app (snd ev) (fst ev), g).
Proof.
  unfold step. destruct (route (snd ev)) as [p|] eqn:Hr.
  - destruct (store_free_exec (route_store_free _ Hr) (fst ev) g [])
      as [Hg Hv].
    destruct (exec p (fst ev) g) as [r g1]. cbn [fst snd] in Hg, Hv.
    subst g1. rewrite Hv. now rewrite (route_exec _ (fst ev) Hr).
  - now rewrite (route_none _ (fst ev) Hr).
Qed.

Lemma run_service_frame (g : dict) (tr : list event) :
  run_service g tr = (serve tr, g).
Proof.
  induction tr as [|ev tr IH]; [reflexivity|].
  cbn [run_service]. now rewrite step_frame, IH.
Qed.

Lemma response_in_app (g : dict) (pre : list event) (now : float)
  (rq : http_request) :
  response_in g pre now rq = Some (app rq now).
Proof.
  unfold response_in. rewrite run_service_frame. cbn [fst].
  apply response_after_app.
Qed.

(** ** The status lookup *)

(** C6.  The lookup reports ["completed"] for every task id it is handed,
    without a check that the id exists: the handler returns a record for
    the id with that status whatever the text, and every lookup that the
    route matches, of an id issued by a submission of the execution or
    not and whatever names the process holds, is answered with 200 and
    that record. *)
Theorem get_task_status_always_completed
  (g : dict) (pre : list event) (now : float) (task_id : string) :
  (exists d,
      get_task_status task_id = Ok (PyDict d) /\
      dict_get "task_id" d = Some (PyStr task_id) /\
      dict_get "status" d = Some (PyStr "completed")) /\
  (path_segment task_id = true ->
   exists r,
     response_in g pre now (GET_api_tasks task_id) = Some r /\
     status_code r = 200 /\
     field "task_id" r = Some (PyStr task_id) /\
     field "status" r = Some (PyStr "completed")).
Proof.
  split.
  - eexists. split; [reflexivity|]. now split.
  - intros Hseg. rewrite response_in_app, (lookup_routed task_id now Hseg).
    eexists. split; [reflexivity|]. now serve_request.
Qed.

Lemma get_task_status_always_completed_witness :
  exists r,
    response_in [("tasks", PyList [])]
      [(quarter_to, POST_api_process csv_request)] next_second
      (GET_api_tasks "never-issued") = Some r /\
    status_code r = 200 /\
    field "task_id" r = Some (PyStr "never-issued") /\
    field "status" r = Some (PyStr "completed").
Proof.
  apply (proj2 (get_task_status_always_completed
                  [("tasks", PyList [])]
                  [(quarter_to, POST_api_process csv_request)]
                  next_second "never-issued")).
  reflexivity.
Defined.

(** C9.  Two calls of the lookup for the same id get the same answer,
    whenever they are served, whatever was served before them and
    whatever names the process holds.  The handler's value has the status
    ["completed"] and the result ["Processing completed for "] followed by
    the id, and that is the answer to every lookup the route matches. *)
Theorem get_task_status_deterministic
  (task_id : string) (g1 g2 : dict) (pre1 pre2 : list event)
  (now1 now2 : float) :
  response_in g1 pre1 now1 (GET_api_tasks task_id) =
  response_in g2 pre2 now2 (GET_api_tasks task_id) /\
  (exists d,
      get_task_status task_id = Ok (PyDict d) /\
      dict_get "status" d = Some (PyStr "completed") /\
      dict_get "result" d =
        Some (PyStr ("Processing completed for " ++ task_id))) /\
  (path_segment task_id = true ->
   exists r,
     response_in g1 pre1 now1 (GET_api_tasks task_id) = Some r /\
     field "status" r = Some (PyStr "completed") /\
     field "result" r =
       Some (PyStr ("Processing completed for " ++ task_id))).
Proof.
  rewrite !response_in_app. split; [|split].
  - cbn [app]. reflexivity.
  - eexists. split; [reflexivity|]. now split.
  - intros Hseg. rewrite (lookup_routed task_id now1 Hseg).
    eexists. split; [reflexivity|]. now serve_request.
Qed.

Lemma get_task_status_deterministic_witness :
  exists r,
    response_in [] [] quarter_past (GET_api_tasks "task_1700000000") =
      Some r /\
    field "status" r = Some (PyStr "completed") /\
    field "result" r =
      Some (PyStr ("Processing completed for " ++ "task_1700000000")).
Proof.
  apply (proj2 (proj2 (get_task_status_deterministic
                         "task_1700000000" [] [("tasks", PyList [])]
                         [] [(quarter_to, POST_api_process echo_request)]
                         quarter_past next_second))).
  reflexivity.
Defined.




(** The two sides of the amended claim at work: an id that was never
    issued is reported completed, a text with a slash is not found. *)
Example lookups_of_unknown_ids :
  status_code (app (GET_api_tasks "task_42") next_second) = 200 /\
  field "status" (app (GET_api_tasks "task_42") next_second) =
    Some (PyStr "completed") /\
  app (GET_api_tasks "a/b") next_second = not_found /\
  app (GET_api_tasks "") next_second = not_found.
Proof. repeat split. Qed.

(** ** Submission *)

(** C7.  A submission served at a finite clock reading returns the id
    ["task_"] followed by the decimal digits of the whole seconds of that
    reading: the reading with its fraction dropped. *)
Theorem task_id_is_clock_seconds (request : ProcessingRequest) (now : float) :
  is_finite now = true ->
  exists seconds : Z,
    whole_seconds now seconds /\
    returned_id (app (POST_api_process request) now) =
      Some ("task_" ++ str_of_int seconds) /\
    option_map Z.of_int (NilZero.int_of_string (str_of_int seconds)) =
      Some seconds.
Proof.
  intros Hfin. destruct (int_of_float_finite now Hfin) as [n Hn].
  exists n. split; [now apply int_of_float_whole_seconds|].
  split; [|apply str_of_int_reads_back].
  now rewrite (process_data_returns request now Hn).
Qed.

Lemma task_id_is_clock_seconds_witness :
  exists seconds : Z,
    whole_seconds quarter_to seconds /\
    returned_id (app (POST_api_process echo_request) quarter_to) =
      Some ("task_" ++ str_of_int seconds) /\
    option_map Z.of_int (NilZero.int_of_string (str_of_int seconds)) =
      Some seconds.
Proof.
  apply (task_id_is_clock_seconds echo_request quarter_to). reflexivity.
Defined.

Example task_id_at_quarter_to :
  returned_id (app (POST_api_process echo_request) quarter_to) =
  Some "task_1700000000".
Proof. reflexivity. Qed.

(** C3, refuted as stated.  Two submissions served within the same second,
    at 1700000000.25 and 1700000000.75 and with different bodies, are given
    the same id. *)
Lemma same_second_same_id :
  ~ submissions_get_distinct_ids
      quarter_past csv_request quarter_to echo_request.
Proof.
  intros H. now apply (H "task_1700000000" "task_1700000000").
Qed.

(** C3, amended.  Two submissions are given the same id exactly when
    their clock readings have the same whole seconds; they are given
    different ids exactly when the whole seconds differ. *)
Theorem task_ids_equal_iff_same_second
  (now1 now2 : float) (request1 request2 : ProcessingRequest)
  (seconds1 seconds2 : Z) :
  whole_seconds now1 seconds1 ->
  whole_seconds now2 seconds2 ->
  exists id1 id2,
    returned_id (app (POST_api_process request1) now1) = Some id1 /\
    returned_id (app (POST_api_process request2) now2) = Some id2 /\
    (id1 = id2 <-> seconds1 = seconds2).
Proof.
  intros H1 H2.
  apply int_of_float_whole_seconds in H1, H2.
  rewrite (process_data_returns request1 now1 H1).
  rewrite (process_data_returns request2 now2 H2).
  do 2 eexists. split; [reflexivity|]. split; [reflexivity|].
  split; [|now intros ->].
  intros E. now apply str_of_int_inj, (append_inj_r "task_").
Qed.

Lemma task_ids_equal_iff_same_second_witness :
  exists id1 id2,
    returned_id (app (POST_api_process csv_request) quarter_past) = Some id1 /\
    returned_id (app (POST_api_process echo_request) next_second) = Some id2 /\
    (id1 = id2 <-> 1700000000 = 1700000001).
Proof.
  apply (task_ids_equal_iff_same_second
           quarter_past next_second csv_request echo_request).
  - cbn. unfold truncation_of. cbn. lia.
  - cbn. unfold truncation_of. cbn. lia.
Defined.







(** Nor is a submission answered 400 or 503 when the clock reading is not
    finite. *)
Lemma process_data_never_400_503 (request : ProcessingRequest) (now : float) :
  status_code (app (POST_api_process request) now) <> InvalidRequest /\
  status_code (app (POST_api_process request) now) <> Overloaded.
Proof.
  destruct (is_finite now) eqn:Hfin.
  - destruct (int_of_float_finite now Hfin) as [n Hn].
    rewrite (process_data_returns request now Hn). split; discriminate.
  - rewrite (process_data_raises request now Hfin). split; discriminate.
Qed.

(** ** Submission followed by lookups *)

(** C4, refuted as stated.  The lookup served right after the submission
    reports a terminal status: the walk does not start at Pending. *)
Lemma first_poll_is_terminal :
  ~ lifecycle_starts_pending quarter_to echo_request [].
Proof.
  intros H. destruct (H "task_1700000000" eq_refl) as (sts & Hm & Hhd & _).
  destruct sts as [|st sts]; [discriminate Hhd|].
  injection Hhd as ->. discriminate Hm.
Qed.

Lemma non_decreasing_repeat_Completed (n : nat) :
  non_decreasing (repeat Completed n) = true.
Proof.
  induction n as [|[|n] IH]; [reflexivity..|exact IH].
Qed.

(** C4, amended.  Every lookup of a submitted task reports ["completed"],
    wherever it is served in the execution: the statuses polled are
    Completed throughout, so they never step back, and neither Pending nor
    Running is ever among them. *)
Theorem polled_status_always_completed (tr : list event) (task_id : string) :
  In task_id (issued_ids tr) ->
  let observed := map status_of_pyval (polled task_id tr) in
  observed = map Some (repeat Completed (List.length observed)) /\
  non_decreasing (repeat Completed (List.length observed)) = true /\
  ~ In (Some Pending) observed /\
  ~ In (Some Running) observed.
Proof.
  intros Hseg%issued_id_path_segment observed.
  assert (E : observed = repeat (Some Completed) (List.length observed)).
  { subst observed. rewrite length_map.
    rewrite (@polled_all_completed task_id tr Hseg) at 1.
    now rewrite map_repeat. }
  split; [now rewrite map_repeat|].
  split; [apply non_decreasing_repeat_Completed|].
  split; intros Hin; rewrite E in Hin;
    apply repeat_spec in Hin; discriminate Hin.
Qed.

Lemma polled_status_always_completed_witness :
  let tr :=
    [(quarter_to, POST_api_process echo_request);
     (quarter_to, GET_api_tasks "task_1700000000");
     (next_second, GET_api_tasks "task_1700000000")] in
  let observed := map status_of_pyval (polled "task_1700000000" tr) in
  observed = map Some (repeat Completed (List.length observed)) /\
  non_decreasing (repeat Completed (List.length observed)) = true /\
  ~ In (Some Pending) observed /\
  ~ In (Some Running) observed.
Proof.
  apply (polled_status_always_completed
           [(quarter_to, POST_api_process echo_request);
            (quarter_to, GET_api_tasks "task_1700000000");
            (next_second, GET_api_tasks "task_1700000000")]
           "task_1700000000").
  cbn. now left.
Defined.

Example polled_twice :
  map status_of_pyval
    (polled "task_1700000000"
       [(quarter_to, POST_api_process echo_request);
        (quarter_to, GET_api_tasks "task_1700000000");
        (next_second, GET_api_tasks "task_1700000000")]) =
  [Some Completed; Some Completed].
Proof. reflexivity. Qed.

(** C8, refuted as stated.  The echo task submitted at 1700000000.75 and
    polled one quarter of a second later is seen completed, and its result
    is not the parameters it was submitted with. *)
Lemma echo_result_is_a_message :
  ~ echo_result_is_parameters quarter_to next_second.
Proof.
  intros H. specialize (H "task_1700000000" eq_refl eq_refl).
  discriminate H.
Qed.

(** C8, amended.  Whatever request is submitted, the echo request with
    parameters [{n: 3}] included, the first lookup of the returned id
    already reports ["completed"], and its result is the string
    ["Processing completed for "] followed by the id: a string, not the
    submitted parameters. *)
Theorem result_is_completion_message
  (request : ProcessingRequest) (now poll_time : float) :
  is_finite now = true ->
  exists task_id,
    returned_id (app (POST_api_process request) now) = Some task_id /\
    let r := app (GET_api_tasks task_id) poll_time in
    field "status" r = Some (PyStr "completed") /\
    field "result" r = Some (PyStr ("Processing completed for " ++ task_id)) /\
    field "result" r <> Some (PyDict (parameters request)).
Proof.
  intros Hfin. destruct (int_of_float_finite now Hfin) as [n Hn].
  rewrite (process_data_returns request now Hn).
  eexists. split; [reflexivity|].
  rewrite (lookup_routed _ poll_time (task_id_path_segment n)).
  serve_request. repeat split. discriminate.
Qed.

Lemma result_is_completion_message_witness :
  exists task_id,
    returned_id (app (POST_api_process echo_request) quarter_to) =
      Some task_id /\
    let r := app (GET_api_tasks task_id) next_second in
    field "status" r = Some (PyStr "completed") /\
    field "result" r = Some (PyStr ("Processing completed for " ++ task_id)) /\
    field "result" r <> Some (PyDict (parameters echo_request)).
Proof.
  apply (result_is_completion_message echo_request quarter_to next_second).
  reflexivity.
Defined.

Example echo_result :
  field "result" (app (GET_api_tasks "task_1700000000") next_second) =
  Some (PyStr "Processing completed for task_1700000000").
Proof. reflexivity. Qed.

(** ** No task state *)

(** A submission's answer is a function of the operation type, the data
    source and the whole seconds of the clock: neither the parameters nor
    the fraction of the second reach it. *)
Lemma process_data_depends_on (request1 request2 : ProcessingRequest)
  (now1 now2 : float) :
  operation_type request1 = operation_type request2 ->
  data_source request1 = data_source request2 ->
  int_of_float now1 = int_of_float now2 ->
  app (POST_api_process request1) now1 = app (POST_api_process request2) now2.
Proof.
  intros Hop Hds Hint. cbn [app]. unfold process_data.
  now rewrite Hop, Hds, Hint.
Qed.

(** Each invocation is answered on its own. *)
Lemma serve_nth (tr : list event) (i : nat) :
  nth_error (serve tr) i =
  option_map (fun ev => app (snd ev) (fst ev)) (nth_error tr i).
Proof. apply nth_error_map. Qed.

Lemma serve_permutation (tr tr' : list event) :
  Permutation tr tr' ->
  Permutation (combine tr (serve tr)) (combine tr' (serve tr')).
Proof.
  intros HP. unfold serve.
  induction HP as [|ev l l' _ IH|ev1 ev2 l|l l' l'' _ IH1 _ IH2]; cbn.
  - constructor.
  - now constructor.
  - constructor.
  - now transitivity (combine l' (map (fun ev => app (snd ev) (fst ev)) l')).
Qed.

(** The frame lemma has content: a body that kept a table of tasks would
    not pass it. *)
Example a_task_table_is_state :
  ~ store_free (Assign_global "tasks" (PyList [PyStr "task_1"]) (Return PyNone))
  /\ snd (exec (Assign_global "tasks" (PyList [PyStr "task_1"])
                  (Return PyNone)) quarter_to []) <> [].
Proof.
  split; [intros H; inversion H|discriminate].
Qed.

(** C10.  No endpoint reads or writes shared task state.  The body of
    every handler names no module-level variable.  Hence a process that
    starts with any module-level names [g] ends every execution with the
    same names, and its answers are those the handlers compute from the
    request and the clock reading alone.  So the answer to a lookup is the
    same after an execution with a submission placed anywhere in it as
    after the execution without it; overlapping requests get the same
    answers in whatever order they are served; and the answer to a
    submission is that of [process_data] on its body and the clock
    reading, whatever was served before. *)
Theorem no_shared_task_state :
  (forall rq p, route rq = Some p -> store_free p) /\
  (forall g tr,
      snd (run_service g tr) = g /\
      forall g', fst (run_service g tr) = fst (run_service g' tr)) /\
  (forall g g' tr1 tr2 now request t task_id,
      response_in g (tr1 ++ (now, POST_api_process request) :: tr2)%list
        t (GET_api_tasks task_id) =
      response_in g' (tr1 ++ tr2)%list t (GET_api_tasks task_id)) /\
  (forall g tr tr',
      Permutation tr tr' ->
      Permutation (combine tr (fst (run_service g tr)))
        (combine tr' (fst (run_service g tr')))) /\
  (forall g g' pre pre' now request,
      response_in g pre now (POST_api_process request) =
      response_in g' pre' now (POST_api_process request) /\
      response_in g pre now (POST_api_process request) =
      Some (respond (process_data request now))).
Proof.
  split; [exact route_store_free|].
  split; [|split; [|split]].
  - intros g tr. split; [|intros g']; now rewrite !run_service_frame.
  - intros. now rewrite !response_in_app.
  - intros g tr tr' HP. rewrite !run_service_frame. cbn [fst].
    now apply serve_permutation.
  - intros. now rewrite !response_in_app.
Qed.

Lemma no_shared_task_state_witness :
  let tr :=
    [(quarter_to, POST_api_process echo_request);
     (quarter_to, GET_api_tasks "task_1700000000")] in
  let tr' :=
    [(quarter_to, GET_api_tasks "task_1700000000");
     (quarter_to, POST_api_process echo_request)] in
  store_free (process_data_body echo_request) /\
  Permutation (combine tr (fst (run_service [] tr)))
    (combine tr' (fst (run_service [] tr'))).
Proof.
  split.
  - apply (proj1 no_shared_task_state (POST_api_process echo_request)).
    reflexivity.
  - apply (proj1 (proj2 (proj2 (proj2 no_shared_task_state)))).
    apply perm_swap.
Defined.

(** ** Whole seconds and the order of clock readings *)

Lemma pow2_max_pos (k : Z) : 0 < 2 ^ Z.max 0 k.
Proof. apply Z.pow_pos_nonneg; lia. Qed.

Example float_value_quarter_to :
  option_map (Qeq_bool (6800000003 # 4)) (float_value quarter_to) = Some true.
Proof. reflexivity. Qed.

(** The sign of a reading is the sign of its whole seconds, and the whole
    seconds are less than one second away from it, on the side of zero. *)
Lemma int_of_float_brackets (now : float) (x : Q) (n : Z) :
  float_value now = Some x ->
  int_of_float now = Ok n ->
  ((0 <= x)%Q -> (inject_Z n <= x)%Q /\ (x < inject_Z (n + 1))%Q) /\
  ((x <= 0)%Q -> (inject_Z (n - 1) < x)%Q /\ (x <= inject_Z n)%Q).
Proof.
  destruct now as [sg|sg| |sg m e]; cbn [float_value int_of_float];
    try discriminate.
  - intros [= <-] [= <-]. unfold Qle, Qlt. cbn. lia.
  - destruct (int_of_float_truncates sg m e) as [_ H].
    rewrite abs_cond_Zopp_shifted in H.
    pose proof (pow2_max_pos (- e)) as Ha.
    pose proof (pow2_max_pos e) as Hb.
    assert (Hm : 0 < Zpos m * 2 ^ Z.max 0 e) by lia.
    revert H Hm Ha.
    generalize (Zpos m * 2 ^ Z.max 0 e) (2 ^ Z.max 0 (- e))
      (Z.shiftl (Zpos m) e).
    intros M A k H Hm Ha [= <-] [= <-].
    unfold Qle, Qlt. cbn [Qnum Qden inject_Z].
    rewrite Z2Pos.id by exact Ha.
    destruct sg; cbn [cond_Zopp]; repeat split; lia.
Qed.

Lemma whole_seconds_le (now1 now2 : float) (x1 x2 : Q) (n1 n2 : Z) :
  float_value now1 = Some x1 -> float_value now2 = Some x2 ->
  int_of_float now1 = Ok n1 -> int_of_float now2 = Ok n2 ->
  (x1 <= x2)%Q -> n1 <= n2.
Proof.
  intros V1 V2 I1 I2 Hle.
  destruct (int_of_float_brackets now1 V1 I1) as [P1 N1].
  destruct (int_of_float_brackets now2 V2 I2) as [P2 N2].
  destruct (Z_le_gt_dec n1 n2) as [|Hgt]; [easy|exfalso].
  assert (Hq : (inject_Z (n2 + 1) <= inject_Z n1)%Q)
    by (rewrite <- Zle_Qle; lia).
  assert (Hq' : (inject_Z n2 <= inject_Z (n1 - 1))%Q)
    by (rewrite <- Zle_Qle; lia).
  destruct (Qlt_le_dec x1 0) as [Hx1|Hx1];
    destruct (Qlt_le_dec x2 0) as [Hx2|Hx2].
  - specialize (N1 ltac:(lra)). specialize (N2 ltac:(lra)). lra.
  - specialize (N1 ltac:(lra)). specialize (P2 ltac:(lra)).
    assert (n1 - 1 < 0)
      by (rewrite Zlt_Qlt; change (inject_Z 0) with 0%Q; lra).
    assert (0 < n2 + 1)
      by (rewrite Zlt_Qlt; change (inject_Z 0) with 0%Q; lra).
    lia.
  - specialize (P1 ltac:(lra)). specialize (N2 ltac:(lra)). lra.
  - specialize (P1 ltac:(lra)). specialize (P2 ltac:(lra)). lra.
Qed.

Lemma float_value_int_of_float (now : float) (x : Q) :
  float_value now = Some x -> exists n, int_of_float now = Ok n.
Proof.
  intros H. apply int_of_float_finite. now destruct now.
Qed.

(** X2.  The numbers in the task ids follow the clock: of two submissions, the
    one served at the later (or the same) reading gets the id with the
    larger (or the same) number. *)
Theorem task_ids_follow_the_clock
  (now1 now2 : float) (request1 request2 : ProcessingRequest) (x1 x2 : Q) :
  float_value now1 = Some x1 ->
  float_value now2 = Some x2 ->
  (x1 <= x2)%Q ->
  exists n1 n2,
    returned_id (app (POST_api_process request1) now1) =
      Some ("task_" ++ str_of_int n1) /\
    returned_id (app (POST_api_process request2) now2) =
      Some ("task_" ++ str_of_int n2) /\
    n1 <= n2.
Proof.
  intros V1 V2 Hle.
  destruct (float_value_int_of_float now1 V1) as [n1 I1].
  destruct (float_value_int_of_float now2 V2) as [n2 I2].
  exists n1, n2.
  rewrite (process_data_returns request1 now1 I1).
  rewrite (process_data_returns request2 now2 I2).
  repeat split. exact (whole_seconds_le now1 now2 V1 V2 I1 I2 Hle).
Qed.

Lemma task_ids_follow_the_clock_witness :
  exists n1 n2,
    returned_id (app (POST_api_process csv_request) quarter_past) =
      Some ("task_" ++ str_of_int n1) /\
    returned_id (app (POST_api_process echo_request) next_second) =
      Some ("task_" ++ str_of_int n2) /\
    n1 <= n2.
Proof.
  apply (task_ids_follow_the_clock quarter_past next_second
           csv_request echo_request
           (x1 := 7130316801048576 # 4194304)
           (x2 := 7130316804194304 # 4194304)).
  - reflexivity.
  - reflexivity.
  - unfold Qle. cbn. lia.
Defined.

(** X3.  Two submissions served at least one second apart, at readings that
    are not negative, get different ids. *)
Theorem one_second_apart_distinct_ids
  (now1 now2 : float) (request1 request2 : ProcessingRequest) (x1 x2 : Q) :
  float_value now1 = Some x1 ->
  float_value now2 = Some x2 ->
  (0 <= x1)%Q ->
  (x1 + 1 <= x2)%Q ->
  exists id1 id2,
    returned_id (app (POST_api_process request1) now1) = Some id1 /\
    returned_id (app (POST_api_process request2) now2) = Some id2 /\
    id1 <> id2.
Proof.
  intros V1 V2 H0 Hsep.
  destruct (float_value_int_of_float now1 V1) as [n1 I1].
  destruct (float_value_int_of_float now2 V2) as [n2 I2].
  rewrite (process_data_returns request1 now1 I1).
  rewrite (process_data_returns request2 now2 I2).
  do 2 eexists. split; [reflexivity|]. split; [reflexivity|].
  intros E. apply (append_inj_r "task_"), str_of_int_inj in E.
  destruct (int_of_float_brackets now1 V1 I1) as [P1 _].
  destruct (int_of_float_brackets now2 V2 I2) as [P2 _].
  specialize (P1 H0). specialize (P2 ltac:(lra)).
  subst n2. destruct P2 as [_ P2]. rewrite inject_Z_plus in P2.
  change (inject_Z 1) with 1%Q in P2. lra.
Qed.

Lemma one_second_apart_distinct_ids_witness :
  exists id1 id2,
    returned_id (app (POST_api_process csv_request) quarter_past) = Some id1 /\
    returned_id (app (POST_api_process csv_request) two_seconds_on) =
      Some id2 /\
    id1 <> id2.
Proof.
  apply (one_second_apart_distinct_ids quarter_past two_seconds_on
           csv_request csv_request
           (x1 := 7130316801048576 # 4194304)
           (x2 := 7130316810485760 # 4194304)).
  - reflexivity.
  - reflexivity.
  - unfold Qle. cbn. lia.
  - unfold Qle. cbn. lia.
Defined.

(** Across the epoch the separation is lost: [int] rounds toward zero, so
    the readings -0.5 and 0.5, one second apart, share [task_0]. *)
Example across_the_epoch :
  returned_id
    (app (POST_api_process csv_request) (S754_finite true 1 (-1))) =
  returned_id
    (app (POST_api_process csv_request) (S754_finite false 1 (-1))).
Proof. reflexivity. Qed.

(** ** The text of an issued id *)

(** X1.  Every id that a submission of an execution returned reads ["task_"],
    then a minus sign if the number that follows is negative, then a
    non-empty run of decimal digits; all of its characters are ones a URL
    carries without escaping and none is a slash, so the id fits the path
    of the lookup route as it is. *)
Theorem issued_id_text (tr : list event) (id : string) :
  In id (issued_ids tr) ->
  (exists n digits,
      id = "task_" ++ (if (n <? 0)%Z then "-" else "") ++ digits /\
      digits <> "" /\
      string_forall is_digit digits = true) /\
  string_forall unreserved id = true /\
  string_forall (fun c => negb (c =? "/")%char) id = true.
Proof.
  intros (now & request & _ & Hid)%issued_ids_In.
  destruct (returned_id_inv request now Hid) as (n & _ & ->).
  destruct (str_of_int_shape n) as (digits & -> & Hne & Hd).
  assert (Hu : string_forall unreserved
                 ("task_" ++ (if (n <? 0)%Z then "-" else "") ++ digits) = true).
  { rewrite !string_forall_app.
    rewrite (string_forall_impl is_digit unreserved digits
               is_digit_unreserved Hd).
    now destruct (n <? 0)%Z. }
  split; [now exists n, digits|]. split; [exact Hu|].
  revert Hu. apply string_forall_impl.
  intros c Hc. destruct (Ascii.eqb_spec c "/"); [now subst c|easy].
Qed.

Lemma issued_id_text_witness :
  (exists n digits,
      "task_1700000000" =
        "task_" ++ (if (n <? 0)%Z then "-" else "") ++ digits /\
      digits <> "" /\
      string_forall is_digit digits = true) /\
  string_forall unreserved "task_1700000000" = true /\
  string_forall (fun c => negb (c =? "/")%char) "task_1700000000" = true.
Proof.
  apply (issued_id_text
           [(quarter_past, GET_health);
            (quarter_to, POST_api_process echo_request)]).
  cbn. now left.
Defined.

(** ** What a submission's answer depends on *)







(** ** Status codes along an execution *)



(** At a clock reading that is not finite the probes fail too: their
    timestamp cannot be rendered. *)
Example readiness_at_nan :
  status_code (app GET_ready S754_nan) = 500.
Proof. reflexivity. Qed.
